(** * Blaze expression graph: a shallow embedding of [expression.py] and
      [blaze/compute/pmap.py]

    The Python program builds a typed expression graph lazily.  Host values are
    wrapped in [Terminal] nodes, operations are recorded as [Op] and [Kernel]
    nodes held by [Value] wrappers, and every [Terminal] or [Value] is an
    instance of a class synthesised at run time from the [module] dictionary.

    Python objects are modelled by the inductive type [value]; the interpreter
    state that the program reads and writes (the objects it has constructed,
    the draws taken from [random], the calls made into the backend module) is
    threaded explicitly through a small state-and-exception monad. *)

From Stdlib Require Import ZArith.
From stdpp Require Import base option list strings gmap.

Open Scope string_scope.

(** ** Exceptions and outcomes *)

(** The built-in exceptions the program can raise.  [RuntimeError] is the
    interpreter's answer to an exhausted recursion limit. *)
Inductive PyExc :=
  | KeyError
  | IndexError
  | AttributeError
  | TypeError
  | NotImplementedError
  | RuntimeError.

Inductive Result (A : Type) :=
  | Ok (a : A)
  | Raise (e : PyExc).
Arguments Ok {A} a.
Arguments Raise {A} e.

(** ** The kernel enumeration *)

Definition MAP : Z := 0.
Definition ZIPWITH : Z := 1.
Definition SCAN : Z := 2.
Definition REDUCE : Z := 3.
Definition OUTER : Z := 4.

Definition kernel_kinds : list Z := [MAP; ZIPWITH; SCAN; REDUCE; OUTER].

(** ** The module dictionary *)

(** The five lambdas stored in [module], named after the category and the
    slot they are stored under.  Their bodies are given by [call_method]
    once [binop] and [kernel] are defined. *)
Inductive Method :=
  | array_add
  | array_radd
  | array_dot
  | scalar_add
  | scalar_mul.

Definition module : gmap string (gmap string Method) :=
  <["array" := <["__add__" := array_add]>
                (<["__radd__" := array_radd]>
                (<["dot" := array_dot]> ∅))]>
  (<["scalar" := <["__add__" := scalar_add]>
                 (<["__mul__" := scalar_mul]> ∅)]> ∅).

Definition docs : gmap string string :=
  <["array" := "A vector value"]> (<["scalar" := "A scalar value"]> ∅).

(** ** Classes and objects *)

(** The two classes a proxy class can be derived from. *)
Inductive Cls :=
  | ClsValue
  | ClsTerminal.

(** What a synthesised class stores in its namespace: a method taken from
    [module], or a string ([ty] and [__doc__]). *)
Inductive Attr :=
  | AMethod (m : Method)
  | AStr (s : string).

(** The class built by [type(cls.__name__, (cls, AST), ns)]: the class it
    derives from and the dictionary [ns] passed to [type].  The entry
    [__module__], which [type] adds to every class it builds, is not
    recorded. *)
Record Proxy := MkProxy {
  base : Cls;
  ns : gmap string Attr
}.

(** Python objects.  [VInst] is an instance of a synthesised class: [id] is
    its identity (its allocation number), [ty] the attribute set by
    [__init__], and [payload] the second attribute set by [__init__], which is
    [src] for a class derived from [Terminal] and [_ast] for one derived from
    [Value]. *)
#[warnings="-register-all"]
Inductive value :=
  | VNone
  | VBool (b : bool)
  | VInt (n : Z)
  | VLong (n : Z)
  | VFloat (bits : Z)
  | VStr (s : string)
  | VList (xs : list value)
  | VTuple (xs : list value)
  | VNdarray (dtype : string) (data : list Z)
  | VObject (addr : nat)
  | VOp (op : string) (left right : value)
  | VKernel (kind : Z) (name : string) (args : list value)
  | VInst (id : nat) (cls : Proxy) (ty : string) (payload : value).

(** ** Interpreter state *)

(** [heap] lists the [Terminal] and [Value] instances constructed so far,
    oldest first; [draws] counts the calls made to [random.choice];
    [calls] records every call into the backend module, oldest first. *)
Record State := MkState {
  heap : list value;
  draws : nat;
  calls : list (string * value)
}.

Definition M (A : Type) : Type := State → Result A * State.

Definition ret {A} (a : A) : M A := λ s, (Ok a, s).

Definition raise {A} (e : PyExc) : M A := λ s, (Raise e, s).

Definition bind {A B} (m : M A) (k : A → M B) : M B :=
  λ s, match m s with
       | (Ok a, s') => k a s'
       | (Raise e, s') => (Raise e, s')
       end.

Definition liftR {A} (r : Result A) : M A := λ s, (r, s).

Notation "x <- m ;; k" := (bind m (λ x, k))
  (at level 100, m at next level, right associativity).

(** [map(f, xs)] for an [f] that acts on the state: left to right, stopping
    at the first exception. *)
Fixpoint mapM {A B} (f : A → M B) (xs : list A) : M (list B) :=
  match xs with
  | [] => ret []
  | x :: xs' => y <- f x ;; ys <- mapM f xs' ;; ret (y :: ys)
  end.

(** [xs[i]] on a Python list. *)
Definition getitem (xs : list value) (i : nat) : M value :=
  match xs !! i with
  | Some x => ret x
  | None => raise IndexError
  end.

(** ** Proxy classes *)

(** [Node._proxy]: [module[ty]] and [docs[ty]] raise [KeyError] on a missing
    key; the namespace copies the category's methods, then stores [ty] and
    [__doc__] over them. *)
Definition _proxy (cls : Cls) (ty : string) : Result Proxy :=
  match module !! ty with
  | None => Raise KeyError
  | Some methods =>
      let ns0 : gmap string Attr := AMethod <$> methods in
      let ns1 := <["ty" := AStr ty]> ns0 in
      match docs !! ty with
      | None => Raise KeyError
      | Some doc => Ok (MkProxy cls (<["__doc__" := AStr doc]> ns1))
      end
  end.

(** [object.__new__(prototype)] followed by [prototype.__init__]: the new
    instance receives the next identity and is recorded in the heap. *)
Definition new_instance (prototype : Proxy) (ty : string) (payload : value)
  : M value :=
  λ s, let ins := VInst (length (heap s)) prototype ty payload in
       (Ok ins, MkState (heap s ++ [ins]) (draws s) (calls s)).

(** [Value.__new__] and [Value.__init__]. *)
Definition Value (ty : string) (ast : value) : M value :=
  prototype <- liftR (_proxy ClsValue ty) ;;
  new_instance prototype ty ast.

(** [Terminal.__new__] and [Terminal.__init__]. *)
Definition Terminal (ty : string) (src : value) : M value :=
  prototype <- liftR (_proxy ClsTerminal ty) ;;
  new_instance prototype ty src.

(** ** Attribute access and [isinstance] *)

(** [e.ty]: only instances of the synthesised classes carry it; [Op] and
    [Kernel] nodes and the modelled host values do not. *)
Definition getattr_ty (e : value) : Result string :=
  match e with
  | VInst _ _ ty _ => Ok ty
  | _ => Raise AttributeError
  end.

Definition isinstance (val : value) (c : Cls) : bool :=
  match val, c with
  | VInst _ (MkProxy ClsValue _) _ _, ClsValue => true
  | VInst _ (MkProxy ClsTerminal _) _ _, ClsTerminal => true
  | _, _ => false
  end.

(** [val._ast], set by [Value.__init__] only. *)
Definition getattr_ast (val : value) : Result value :=
  match val with
  | VInst _ (MkProxy ClsValue _) _ ast => Ok ast
  | _ => Raise AttributeError
  end.

(** [val.src], set by [Terminal.__init__] only. *)
Definition getattr_src (val : value) : Result value :=
  match val with
  | VInst _ (MkProxy ClsTerminal _) _ src => Ok src
  | _ => Raise AttributeError
  end.

(** [isinstance(val, (int, long, float))]; [bool] is a subclass of [int]. *)
Definition is_number (val : value) : bool :=
  match val with
  | VBool _ | VInt _ | VLong _ | VFloat _ => true
  | _ => false
  end.

(** [isinstance(val, (list, np.ndarray))]. *)
Definition is_list_or_ndarray (val : value) : bool :=
  match val with
  | VList _ | VNdarray _ _ => true
  | _ => false
  end.

(** [isinstance(val, object)]: every Python value is an object. *)
Definition is_object (val : value) : bool := true.

(** ** The graph builder *)

(** [unify]: the operator and the second operand are ignored. *)
Definition unify (op : string) (e1 e2 : value) : Result string :=
  getattr_ty e1.

Definition unit (val : value) : M value :=
  if isinstance val ClsValue then liftR (getattr_ast val)
  else if isinstance val ClsTerminal then ret val
  else if is_number val then Terminal "scalar" val
  else if is_list_or_ndarray val then Terminal "array" val
  else if is_object val then Terminal "array" val
  else raise NotImplementedError.

Definition binop (op : string) (a b : value) : M value :=
  retty <- liftR (unify op a b) ;;
  a' <- unit a ;;
  b' <- unit b ;;
  let logic := VOp op a' b' in
  Value retty logic.

(** In [unify(name, args[0], args[1])] both subscripts are evaluated, left to
    right, before [unify] is entered. *)
Definition kernel (kind : Z) (name : string) (args : list value) : M value :=
  operands <- mapM unit args ;;
  arg0 <- getitem args 0 ;;
  arg1 <- getitem args 1 ;;
  retty <- liftR (unify name arg0 arg1) ;;
  let logic := VKernel kind name operands in
  Value retty logic.

(** The bodies of the lambdas of [module]. *)
Definition call_method (m : Method) (self other : value) : M value :=
  match m with
  | array_add => kernel ZIPWITH "add" [self; other]
  | array_radd => kernel ZIPWITH "add" [other; self]
  | array_dot => kernel REDUCE "dot" [self; other]
  | scalar_add => binop "+" self other
  | scalar_mul => binop "*" self other
  end.

(** A bound call [self.m(...)] of one of those lambdas, whose signature is
    [(self, other)]: exactly one further argument, positional or named
    [other]. *)
Definition call_lambda (m : Method) (self : value) (args : list value)
    (kwargs : list (string * value)) : M value :=
  match args, kwargs with
  | [other], [] => call_method m self other
  | [], [(k, other)] =>
      if String.eqb k "other" then call_method m self other
      else raise TypeError
  | _, _ => raise TypeError
  end.

(** ** The graph builder as the specification words it *)

(** The specification's [binop]: the category is [unify] of the lifted
    operands. *)
Definition binop_spec (op : string) (a b : value) : M value :=
  la <- unit a ;;
  lb <- unit b ;;
  category <- liftR (unify op la lb) ;;
  Value category (VOp op la lb).

(** The specification's [kernel]: the category is [unify] of the first two
    lifted operands. *)
Definition kernel_spec (kind : Z) (name : string) (operands : list value)
  : M value :=
  lifted <- mapM unit operands ;;
  l0 <- getitem lifted 0 ;;
  l1 <- getitem lifted 1 ;;
  category <- liftR (unify name l0 l1) ;;
  Value category (VKernel kind name lifted).

(** ** Vocabulary for the statements *)

(** A category is registered when both dictionaries have it. *)
Definition registered (c : string) : Prop :=
  is_Some (module !! c) ∧ is_Some (docs !! c).

(** [t] is a Terminal of category [c] wrapping [src]: an instance of the
    class synthesised from [Terminal] for [c]. *)
Definition is_terminal_of (t : value) (c : string) (src : value) : Prop :=
  ∃ id p, _proxy ClsTerminal c = Ok p ∧ t = VInst id p c src.

(** [v] is a Value of category [c] holding the graph node [graph]. *)
Definition is_value_of (v : value) (c : string) (graph : value) : Prop :=
  ∃ id p, _proxy ClsValue c = Ok p ∧ v = VInst id p c graph.

(** The category of the node a computation returned, or the exception it
    raised. *)
Definition result_category (r : Result value * State) : Result string :=
  match fst r with
  | Ok v => getattr_ty v
  | Raise e => Raise e
  end.

(** The state after one more instance [ins] has been constructed. *)
Definition allocated (s : State) (ins : value) : State :=
  MkState (heap s ++ [ins]) (draws s) (calls s).

(** The class [_proxy] builds for a registered category (an empty class
    otherwise); used to write down concrete nodes. *)
Definition proxy_of (cls : Cls) (c : string) : Proxy :=
  match _proxy cls c with
  | Ok p => p
  | Raise _ => MkProxy cls ∅
  end.

(** ** The nodes of the demonstration *)

(** The program's own demonstration builds [t = T('scalar', 2)],
    [a = T('array', [3,1,4])], [b = T('array', [1,5,9])] and [a + b]; the
    same nodes serve as concrete inputs below. *)
Definition empty_state : State := MkState [] 0 [].

Definition demo_t : value :=
  VInst 0 (proxy_of ClsTerminal "scalar") "scalar" (VInt 2).

Definition demo_a : value :=
  VInst 0 (proxy_of ClsTerminal "array") "array" (VNdarray "int32" [3; 1; 4]%Z).

Definition demo_b : value :=
  VInst 1 (proxy_of ClsTerminal "array") "array" (VNdarray "int32" [1; 5; 9]%Z).

Definition demo_a_plus_b : value :=
  VInst 2 (proxy_of ClsValue "array") "array"
        (VKernel ZIPWITH "add" [demo_a; demo_b]).

Definition demo_state : State := MkState [demo_a; demo_b; demo_a_plus_b] 0 [].

(** ** Evaluation *)

(** The names [oracle] chooses from. *)
Definition backend_names : list string := ["numpy"; "blir"; "numexpr"].

(** [backend == name] for a string literal [name]. *)
Definition eq_str (backend : value) (name : string) : bool :=
  match backend with
  | VStr s => String.eqb s name
  | _ => false
  end.

(** [Terminal.eval]. *)
Definition Terminal_eval (self : value) : M value := ret self.

Section Evaluator.

(** The random generator: [entropy k] is the number behind the [k]-th
    draw. *)
Variable entropy : nat → nat.

(** The three functions of the [compile] module, which the program imports
    and which is not part of the sources at hand. *)
Variables eval_numpy eval_blir eval_numexpr : value → Result value.

(** [random.choice(xs)]. *)
Definition random_choice (xs : list string) : M string :=
  λ s, match xs !! (entropy (draws s) `mod` length xs)%nat with
       | Some x => (Ok x, MkState (heap s) (S (draws s)) (calls s))
       | None => (Raise IndexError, s)
       end.

Definition oracle (expr : value) : M value :=
  name <- random_choice backend_names ;;
  ret (VStr name).

(** A call [compile.f(expr)], recorded in [calls]. *)
Definition compile_call (name : string) (f : value → Result value)
    (expr : value) : M value :=
  λ s, (f expr, MkState (heap s) (draws s) (calls s ++ [(name, expr)])).

(** The bound call [self.eval(...)]: the attribute is looked up in the
    namespace of the instance's class first, then in the class it derives
    from; [Terminal] overrides [eval] with the signature [(self)], [Value]
    inherits [Node.eval] with the signature [(self, backend=None)].
    [node_eval] is [Node.eval] itself. *)
Definition call_eval (node_eval : value → value → M value) (self : value)
    (args : list value) (kwargs : list (string * value)) : M value :=
  match self with
  | VInst _ cls _ _ =>
      match ns cls !! "eval" with
      | Some (AMethod m) => call_lambda m self args kwargs
      | Some (AStr _) => raise TypeError
      | None =>
          match base cls with
          | ClsTerminal =>
              match args, kwargs with
              | [], [] => Terminal_eval self
              | _, _ => raise TypeError
              end
          | ClsValue =>
              match args, kwargs with
              | [], [] => node_eval self VNone
              | [backend], [] => node_eval self backend
              | [], [(k, backend)] =>
                  if String.eqb k "backend" then node_eval self backend
                  else raise TypeError
              | _, _ => raise TypeError
              end
          end
      end
  | _ => raise AttributeError
  end.

(** [Node.eval].  [depth] is the number of frames left before the
    interpreter's recursion limit. *)
Fixpoint Node_eval (depth : nat) (self backend : value) : M value :=
  match depth with
  | O => raise RuntimeError
  | S depth' =>
      expr <- liftR (getattr_ast self) ;;
      if eq_str backend "numpy" then
        compile_call "eval_numpy" eval_numpy expr
      else if eq_str backend "blir" then
        compile_call "eval_blir" eval_blir expr
      else if eq_str backend "numexpr" then
        compile_call "eval_numexpr" eval_numexpr expr
      else
        choice <- oracle expr ;;
        call_eval (Node_eval depth') self [choice] []
  end.

(** A call [node.eval(...)] in user code, with positional arguments [args]
    and keyword arguments [kwargs]. *)
Definition eval (depth : nat) (self : value) (args : list value)
    (kwargs : list (string * value)) : M value :=
  call_eval (Node_eval depth) self args kwargs.

End Evaluator.

(** A generator and backend functions to run the evaluator on: every draw
    comes out as 0, and each backend hands back the graph it is given. *)
Definition constant_entropy : nat → nat := λ _, 0%nat.

Definition echo_backend : value → Result value := Ok.

(** ** The default parallel map ([blaze/compute/pmap.py]) *)

Module Pmap.
Section Pmap.

(** Python callables, and the built-in [map]. *)
Variable Func : Type.
Variable map : Func.

(** The module-level list, as the module initialises it. *)
Definition default_map : list Func := [map].

(** [default_map[0] = func]; assignment to a missing index raises. *)
Definition set_default_pmap (func : Func) (dm : list Func)
  : Result () * list Func :=
  match dm !! 0%nat with
  | Some _ => (Ok (), <[0%nat := func]> dm)
  | None => (Raise IndexError, dm)
  end.

Definition get_default_pmap (dm : list Func) : Result Func * list Func :=
  match dm !! 0%nat with
  | Some f => (Ok f, dm)
  | None => (Raise IndexError, dm)
  end.

(** [n] successive calls of [get_default_pmap]. *)
Fixpoint get_many (n : nat) (dm : list Func)
  : list (Result Func) * list Func :=
  match n with
  | O => ([], dm)
  | S n' =>
      let '(r, dm1) := get_default_pmap dm in
      let '(rs, dm2) := get_many n' dm1 in
      (r :: rs, dm2)
  end.

(** The contents [default_map] can have: the initial one, or what a call of
    [set_default_pmap] leaves. *)
Inductive reachable : list Func → Prop :=
  | reachable_init : reachable default_map
  | reachable_set func dm :
      reachable dm → reachable (snd (set_default_pmap func dm)).

End Pmap.
End Pmap.

(** ** Further operations and vocabulary *)

(** [Node.ast]. *)
Definition Node_ast (self : value) : M value := liftR (getattr_ast self).

(** The bound call [self.ast(...)], resolved like [self.eval(...)]:
    [Node.ast] has the signature [(self)]. *)
Definition call_ast (self : value) (args : list value)
    (kwargs : list (string * value)) : M value :=
  match self with
  | VInst _ cls _ _ =>
      match ns cls !! "ast" with
      | Some (AMethod m) => call_lambda m self args kwargs
      | Some (AStr _) => raise TypeError
      | None =>
          match args, kwargs with
          | [], [] => Node_ast self
          | _, _ => raise TypeError
          end
      end
  | _ => raise AttributeError
  end.

(** The bound call [self.name(...)] as far as the namespace of the
    synthesised class decides it: a lambda of [module] is called, a string is
    not callable.  [None] when the namespace has no such name, so that the
    lookup goes on in the classes the synthesised class derives from. *)
Definition call_registered (self : value) (name : string)
    (args : list value) (kwargs : list (string * value))
  : option (M value) :=
  match self with
  | VInst _ cls _ _ =>
      match ns cls !! name with
      | Some (AMethod m) => Some (call_lambda m self args kwargs)
      | Some (AStr _) => Some (raise TypeError)
      | None => None
      end
  | _ => None
  end.

(** A left-nested chain [f(...f(f(acc, x1), x2)..., xn)], as the expression
    [a + x1 + x2 + ... + xn] evaluates. *)
Fixpoint foldM {A B} (f : A → B → M A) (acc : A) (xs : list B) : M A :=
  match xs with
  | [] => ret acc
  | x :: xs' => acc' <- f acc x ;; foldM f acc' xs'
  end.

(** [x] is an instance of a class synthesised for the category [c]. *)
Definition is_node_of (x : value) (c : string) : Prop :=
  ∃ id cls p payload, _proxy cls c = Ok p ∧ x = VInst id p c payload.

(** A host value that is neither a Value nor a Terminal. *)
Definition is_raw (val : value) : bool :=
  negb (isinstance val ClsValue) && negb (isinstance val ClsTerminal).

Definition count_raw (args : list value) : nat :=
  length (filter (λ a, is_raw a = true) args).

(** What [unit] is to return for [a]: the graph a Value holds, a Terminal
    itself, or a Terminal wrapping a raw value. *)
Definition lift_of (a l : value) : Prop :=
  if isinstance a ClsValue then getattr_ast a = Ok l
  else if isinstance a ClsTerminal then l = a
  else is_terminal_of l (if is_number a then "scalar" else "array") a.

(** A graph as the backends receive it: [Op] and [Kernel] nodes over
    Terminal leaves, with no Value wrapper and no raw host value inside. *)
Fixpoint graph_ok (g : value) : bool :=
  match g with
  | VInst _ (MkProxy ClsTerminal _) _ _ => true
  | VOp _ l r => graph_ok l && graph_ok r
  | VKernel _ _ args => forallb graph_ok args
  | _ => false
  end.

(** An operand [unit] turns into such a graph: anything but a Value whose
    own graph is not one. *)
Definition operand_ok (a : value) : bool :=
  match a with
  | VInst _ (MkProxy ClsValue _) _ g => graph_ok g
  | _ => true
  end.

(** [s'] differs from [s] by constructed instances only: no draw was taken
    and no backend called. *)
Definition extends (s s' : State) : Prop :=
  heap s `prefix_of` heap s' ∧ draws s' = draws s ∧ calls s' = calls s.

(** A computation that only constructs instances. *)
Definition builds_only {A} (m : M A) : Prop := ∀ s, extends s (snd (m s)).

(** [compile.f] for each name [Node.eval] recognises. *)
Definition compile_name (name : string) : string := "eval_" +:+ name.

(** Successive calls [set_default_pmap(f)] for [f] in [fs]. *)
Fixpoint set_many {Func : Type} (fs : list Func) (dm : list Func)
  : list Func :=
  match fs with
  | [] => dm
  | f :: fs' => set_many fs' (snd (Pmap.set_default_pmap Func f dm))
  end.

(** * Properties *)

(** ** The registry *)

Lemma module_lookup c :
  module !! c = None ∨ c = "array" ∨ c = "scalar".
Proof.
  destruct (decide (c = "array")) as [->|Ha]; [by auto|].
  destruct (decide (c = "scalar")) as [->|Hs]; [by auto|].
  left. unfold module.
  rewrite lookup_insert_ne by done.
  rewrite lookup_insert_ne by done.
  apply lookup_empty.
Qed.

Lemma module_array :
  module !! "array"
  = Some (<["__add__" := array_add]>
          (<["__radd__" := array_radd]> (<["dot" := array_dot]> ∅))).
Proof. unfold module. apply lookup_insert_eq. Qed.

Lemma module_scalar :
  module !! "scalar"
  = Some (<["__add__" := scalar_add]> (<["__mul__" := scalar_mul]> ∅)).
Proof.
  unfold module. rewrite lookup_insert_ne by done. apply lookup_insert_eq.
Qed.

Lemma registered_scalar : registered "scalar".
Proof.
  split; [rewrite module_scalar; eauto|].
  unfold docs. rewrite lookup_insert_ne by done.
  rewrite lookup_insert_eq. eauto.
Qed.

Lemma registered_array : registered "array".
Proof.
  split; [rewrite module_array; eauto|].
  unfold docs. rewrite lookup_insert_eq. eauto.
Qed.

Lemma proxy_registered cls c :
  registered c → ∃ nsp, _proxy cls c = Ok (MkProxy cls nsp).
Proof.
  intros [[ms Hm] [d Hd]]. unfold _proxy. rewrite Hm, Hd. eauto.
Qed.

Lemma proxy_ok_registered cls c p : _proxy cls c = Ok p → registered c.
Proof.
  unfold _proxy, registered. intros H.
  destruct (module !! c); [|discriminate].
  destruct (docs !! c); [|discriminate].
  split; eauto.
Qed.

Lemma proxy_ok_base cls c p : _proxy cls c = Ok p → base p = cls.
Proof.
  unfold _proxy. intros H.
  destruct (module !! c); [|discriminate].
  destruct (docs !! c); [|discriminate].
  by inversion H.
Qed.

(** No registered category defines an attribute [eval]: the synthesised
    classes inherit it. *)
Lemma proxy_ok_no_eval cls c p : _proxy cls c = Ok p → ns p !! "eval" = None.
Proof.
  unfold _proxy. intros H.
  assert (∀ ms, module !! c = Some ms → ms !! "eval" = None) as Hms.
  { intros ms Hc. destruct (module_lookup c) as [Hn|[->| ->]].
    - congruence.
    - rewrite module_array in Hc. inversion Hc.
      by repeat (rewrite lookup_insert_ne by done).
    - rewrite module_scalar in Hc. inversion Hc.
      by repeat (rewrite lookup_insert_ne by done). }
  destruct (module !! c) as [ms|]; [|discriminate].
  destruct (docs !! c); [|discriminate].
  inversion H; subst; cbn.
  rewrite lookup_insert_ne by done.
  rewrite lookup_insert_ne by done.
  rewrite lookup_fmap, (Hms ms eq_refl). reflexivity.
Qed.

(** ** Construction *)

Lemma new_instance_eq p c payload s :
  new_instance p c payload s
  = (Ok (VInst (length (heap s)) p c payload),
     allocated s (VInst (length (heap s)) p c payload)).
Proof. reflexivity. Qed.

Lemma Terminal_registered c src s :
  registered c →
  ∃ t, is_terminal_of t c src ∧ Terminal c src s = (Ok t, allocated s t).
Proof.
  intros Hc. destruct (proxy_registered ClsTerminal c Hc) as [nsp Hp].
  exists (VInst (length (heap s)) (MkProxy ClsTerminal nsp) c src). split.
  - by exists (length (heap s)), (MkProxy ClsTerminal nsp).
  - unfold Terminal, bind, liftR. by rewrite Hp.
Qed.

Lemma Value_registered c graph s :
  registered c →
  ∃ v, is_value_of v c graph ∧ Value c graph s = (Ok v, allocated s v).
Proof.
  intros Hc. destruct (proxy_registered ClsValue c Hc) as [nsp Hp].
  exists (VInst (length (heap s)) (MkProxy ClsValue nsp) c graph). split.
  - by exists (length (heap s)), (MkProxy ClsValue nsp).
  - unfold Value, bind, liftR. by rewrite Hp.
Qed.

Lemma is_terminal_isinstance t c src :
  is_terminal_of t c src →
  isinstance t ClsTerminal = true ∧ isinstance t ClsValue = false
  ∧ getattr_ty t = Ok c ∧ getattr_src t = Ok src.
Proof.
  intros (id & p & Hp & ->). apply proxy_ok_base in Hp.
  destruct p as [b nsp]; simpl in Hp; subst b. by cbn.
Qed.

Lemma is_value_isinstance v c graph :
  is_value_of v c graph →
  isinstance v ClsValue = true ∧ getattr_ty v = Ok c
  ∧ getattr_ast v = Ok graph.
Proof.
  intros (id & p & Hp & ->). apply proxy_ok_base in Hp.
  destruct p as [b nsp]; simpl in Hp; subst b. by cbn.
Qed.

(** ** [unit] *)

Lemma unit_Value_instance v s :
  isinstance v ClsValue = true →
  ∃ graph, getattr_ast v = Ok graph ∧ unit v s = (Ok graph, s).
Proof.
  intros Hv. unfold unit. rewrite Hv.
  destruct v as [| | | | | | | | | | | |id [[|] nsp] ty payload];
    try discriminate.
  by exists payload.
Qed.

Lemma unit_Terminal_instance t s :
  isinstance t ClsTerminal = true → unit t s = (Ok t, s).
Proof.
  intros Ht. unfold unit.
  destruct t as [| | | | | | | | | | | |id [[|] nsp] ty payload];
    try discriminate.
  reflexivity.
Qed.

Lemma unit_raw val s :
  isinstance val ClsValue = false → isinstance val ClsTerminal = false →
  unit val s = Terminal (if is_number val then "scalar" else "array") val s.
Proof.
  intros Hv Ht. unfold unit. rewrite Hv, Ht.
  destruct (is_number val); [reflexivity|].
  by destruct (is_list_or_ndarray val).
Qed.

Lemma unit_total val s : ∃ node s', unit val s = (Ok node, s').
Proof.
  destruct (isinstance val ClsValue) eqn:Hv.
  { destruct (unit_Value_instance val s Hv) as (g & _ & Hg). eauto. }
  destruct (isinstance val ClsTerminal) eqn:Ht.
  { rewrite (unit_Terminal_instance val s Ht). eauto. }
  rewrite (unit_raw val s Hv Ht).
  destruct (is_number val).
  - destruct (Terminal_registered "scalar" val s registered_scalar)
      as (t & _ & Heq). eauto.
  - destruct (Terminal_registered "array" val s registered_array)
      as (t & _ & Heq). eauto.
Qed.

Lemma mapM_unit_total args s :
  ∃ nodes s', mapM unit args s = (Ok nodes, s')
              ∧ length nodes = length args.
Proof.
  revert s. induction args as [|a args IH]; intros s.
  - by exists [], s.
  - destruct (unit_total a s) as (n & s1 & Hn).
    destruct (IH s1) as (ns' & s2 & Hns & Hlen).
    exists (n :: ns'), s2. cbn. unfold bind at 1. rewrite Hn.
    unfold bind at 1. rewrite Hns. cbn. by rewrite Hlen.
Qed.

(** C4.  [unit] (the specification's [lift]) hands back a Terminal as it is,
    identity included and with no effect on the state.  For a Value it hands
    back the very node stored in the Value's [_ast] attribute, the [Op] or
    [Kernel] the Value was constructed around: the wrapper is dropped, and
    nothing is constructed in its place. *)
Theorem unit_idempotent_and_unwrapping
    (t v : value) (c : string) (graph : value) (s : State) :
  isinstance t ClsTerminal = true →
  is_value_of v c graph →
  unit t s = (Ok t, s)
  ∧ unit v s = (Ok graph, s)
  ∧ (∀ (id : nat) (nsp : gmap string Attr) (ty : string) (payload : value),
       unit (VInst id (MkProxy ClsValue nsp) ty payload) s = (Ok payload, s)).
Proof.
  intros Ht (id & p & Hp & ->). split; [|split].
  - by apply unit_Terminal_instance.
  - apply proxy_ok_base in Hp. destruct p as [bp nsp]. cbn in Hp. subst bp.
    reflexivity.
  - reflexivity.
Qed.

Lemma unit_idempotent_and_unwrapping_witness :
  unit demo_a demo_state = (Ok demo_a, demo_state)
  ∧ unit demo_a_plus_b demo_state
    = (Ok (VKernel ZIPWITH "add" [demo_a; demo_b]), demo_state)
  ∧ (∀ (id : nat) (nsp : gmap string Attr) (ty : string) (payload : value),
       unit (VInst id (MkProxy ClsValue nsp) ty payload) demo_state
       = (Ok payload, demo_state)).
Proof.
  apply (unit_idempotent_and_unwrapping
           demo_a demo_a_plus_b "array"
           (VKernel ZIPWITH "add" [demo_a; demo_b]) demo_state).
  - vm_compute. reflexivity.
  - exists 2%nat, (proxy_of ClsValue "array").
    split; [vm_compute; reflexivity | reflexivity].
Defined.

(** C5.  For a host value that is neither a Value nor a Terminal, [unit]
    constructs a Terminal wrapping it: of category "scalar" for a number, of
    category "array" for a list or an ndarray, and of category "array" again
    for any other object.  And [unit] raises on no input at all. *)
Theorem unit_raw_host_value (val : value) (s : State) :
  isinstance val ClsValue = false →
  isinstance val ClsTerminal = false →
  (is_number val = true →
     ∃ t, is_terminal_of t "scalar" val ∧ unit val s = (Ok t, allocated s t))
  ∧ (is_number val = false → is_list_or_ndarray val = true →
     ∃ t, is_terminal_of t "array" val ∧ unit val s = (Ok t, allocated s t))
  ∧ (is_number val = false → is_list_or_ndarray val = false →
     ∃ t, is_terminal_of t "array" val ∧ unit val s = (Ok t, allocated s t))
  ∧ (∀ (x : value) (s0 : State), ∃ node s', unit x s0 = (Ok node, s')).
Proof.
  intros Hv Ht. rewrite (unit_raw val s Hv Ht).
  split; [|split; [|split]].
  - intros ->. apply Terminal_registered, registered_scalar.
  - intros -> _. apply Terminal_registered, registered_array.
  - intros -> _. apply Terminal_registered, registered_array.
  - apply unit_total.
Qed.

Lemma unit_raw_host_value_witness :
  (∃ t, is_terminal_of t "scalar" (VFloat 0)
        ∧ unit (VFloat 0) empty_state = (Ok t, allocated empty_state t))
  ∧ (∃ t, is_terminal_of t "array" (VStr "abc")
        ∧ unit (VStr "abc") empty_state = (Ok t, allocated empty_state t)).
Proof.
  split.
  - apply (unit_raw_host_value (VFloat 0) empty_state); reflexivity.
  - apply (unit_raw_host_value (VStr "abc") empty_state); reflexivity.
Defined.

(** C6.  [unify] returns the category of its first operand, whatever the
    operator and whatever the second operand; exchanging two operands of
    different categories therefore changes the result. *)
Theorem unify_left_biased (op : string) (a b : value) (ca cb : string) :
  getattr_ty a = Ok ca →
  getattr_ty b = Ok cb →
  unify op a b = Ok ca
  ∧ (∀ (op' : string) (b' : value), unify op' a b' = Ok ca)
  ∧ (ca ≠ cb → unify op a b ≠ unify op b a).
Proof.
  intros Ha Hb. unfold unify. rewrite Ha, Hb.
  split; [done|]. split; [done|]. congruence.
Qed.

Lemma unify_left_biased_witness :
  unify "+" demo_t demo_a = Ok "scalar"
  ∧ (∀ (op' : string) (b' : value), unify op' demo_t b' = Ok "scalar")
  ∧ ("scalar" ≠ "array" → unify "+" demo_t demo_a ≠ unify "+" demo_a demo_t).
Proof.
  apply (unify_left_biased "+" demo_t demo_a "scalar" "array"); reflexivity.
Defined.

(** C8.  For a category that [module] does not have, [_proxy] raises
    [KeyError] (the specification's UnknownCategory), and so do the
    constructors of [Terminal] and [Value], which leave the state as it
    was. *)
Theorem proxy_unknown_category (c : string) :
  module !! c = None →
  (∀ cls : Cls, _proxy cls c = Raise KeyError)
  ∧ (∀ (src : value) (s : State), Terminal c src s = (Raise KeyError, s))
  ∧ (∀ (ast : value) (s : State), Value c ast s = (Raise KeyError, s)).
Proof.
  intros Hc.
  assert (∀ cls, _proxy cls c = Raise KeyError) as Hp.
  { intros cls. unfold _proxy. by rewrite Hc. }
  split; [exact Hp|]. split.
  - intros src s. unfold Terminal, bind, liftR. by rewrite Hp.
  - intros ast s. unfold Value, bind, liftR. by rewrite Hp.
Qed.

Lemma proxy_unknown_category_witness :
  (∀ cls : Cls, _proxy cls "matrix" = Raise KeyError)
  ∧ (∀ (src : value) (s : State), Terminal "matrix" src s = (Raise KeyError, s))
  ∧ (∀ (ast : value) (s : State), Value "matrix" ast s = (Raise KeyError, s)).
Proof.
  apply (proxy_unknown_category "matrix"). vm_compute. reflexivity.
Defined.

(** ** [binop] and [kernel] *)

Lemma bind_ok {A B} (m : M A) (k : A → M B) s a s' :
  m s = (Ok a, s') → bind m k s = k a s'.
Proof. intros H. unfold bind. by rewrite H. Qed.

Lemma bind_raise {A B} (m : M A) (k : A → M B) s e s' :
  m s = (Raise e, s') → bind m k s = (Raise e, s').
Proof. intros H. unfold bind. by rewrite H. Qed.

(** C2.  With fewer than two operands [kernel] raises [IndexError] (the
    specification's InsufficientOperands) at the subscript [args[0]] or
    [args[1]], for every kind, the five enumerated ones included, and every
    name; no Value is returned. *)
Theorem kernel_insufficient_operands
    (kind : Z) (name : string) (args : list value) (s : State) :
  (length args < 2)%nat →
  ∃ s', kernel kind name args s = (Raise IndexError, s').
Proof.
  intros Hlen. unfold kernel.
  destruct (mapM_unit_total args s) as (nodes & s1 & Hmap & _).
  rewrite (bind_ok _ _ _ _ _ Hmap).
  destruct args as [|a [|b args]]; cbn in Hlen; [| |lia].
  - exists s1. reflexivity.
  - exists s1. reflexivity.
Qed.

Lemma kernel_insufficient_operands_witness :
  Forall (λ kind, ∃ s', kernel kind "add" [demo_a] demo_state
                        = (Raise IndexError, s')) kernel_kinds.
Proof.
  repeat constructor;
    apply (kernel_insufficient_operands _ "add" [demo_a] demo_state);
    simpl; lia.
Defined.

(** C3 (as amended).  [binop] and [kernel] compute the category by applying
    [unify] to the operands as they were passed, before lifting.  When the
    first operand is a Terminal or a Value of a registered category [c], that
    category is [c]; every operand is lifted by [unit], and the result is a
    new Value of category [c] holding the [Op] over the two lifted operands,
    respectively the [Kernel] over all lifted operands. *)
Theorem binop_kernel_unify_before_lifting :
  (∀ (op : string) (a b : value) (c : string) (s : State),
     getattr_ty a = Ok c → registered c →
     ∃ la s1 lb s2 v,
       unify op a b = Ok c
       ∧ unit a s = (Ok la, s1)
       ∧ unit b s1 = (Ok lb, s2)
       ∧ is_value_of v c (VOp op la lb)
       ∧ binop op a b s = (Ok v, allocated s2 v))
  ∧ (∀ (kind : Z) (name : string) (args : list value) (a0 a1 : value)
       (c : string) (s : State),
     args !! 0%nat = Some a0 → args !! 1%nat = Some a1 →
     getattr_ty a0 = Ok c → registered c →
     ∃ lifted s1 v,
       unify name a0 a1 = Ok c
       ∧ mapM unit args s = (Ok lifted, s1)
       ∧ length lifted = length args
       ∧ is_value_of v c (VKernel kind name lifted)
       ∧ kernel kind name args s = (Ok v, allocated s1 v)).
Proof.
  split.
  - intros op a b c s Ha Hc.
    destruct (unit_total a s) as (la & s1 & Hla).
    destruct (unit_total b s1) as (lb & s2 & Hlb).
    destruct (Value_registered c (VOp op la lb) s2 Hc) as (v & Hv & Hnew).
    exists la, s1, lb, s2, v. repeat split; try done.
    unfold binop, unify. rewrite Ha. unfold liftR at 1.
    rewrite (bind_ok _ _ s c s eq_refl).
    rewrite (bind_ok _ _ _ _ _ Hla), (bind_ok _ _ _ _ _ Hlb).
    exact Hnew.
  - intros kind name args a0 a1 c s H0 H1 Ha Hc.
    destruct (mapM_unit_total args s) as (lifted & s1 & Hmap & Hlen).
    destruct (Value_registered c (VKernel kind name lifted) s1 Hc)
      as (v & Hv & Hnew).
    exists lifted, s1, v. repeat split; try done.
    unfold kernel. rewrite (bind_ok _ _ _ _ _ Hmap).
    unfold getitem. rewrite H0, H1.
    rewrite (bind_ok (ret a0) _ s1 a0 s1 eq_refl).
    rewrite (bind_ok (ret a1) _ s1 a1 s1 eq_refl).
    unfold unify. rewrite Ha.
    rewrite (bind_ok (liftR (Ok c)) _ s1 c s1 eq_refl).
    exact Hnew.
Qed.

Lemma binop_kernel_unify_before_lifting_witness :
  (∃ la s1 lb s2 v,
     unify "+" demo_t (VInt 7) = Ok "scalar"
     ∧ unit demo_t demo_state = (Ok la, s1)
     ∧ unit (VInt 7) s1 = (Ok lb, s2)
     ∧ is_value_of v "scalar" (VOp "+" la lb)
     ∧ binop "+" demo_t (VInt 7) demo_state = (Ok v, allocated s2 v))
  ∧ (∃ lifted s1 v,
       unify "add" demo_a_plus_b (VInt 1) = Ok "array"
       ∧ mapM unit [demo_a_plus_b; VInt 1] demo_state = (Ok lifted, s1)
       ∧ length lifted = length [demo_a_plus_b; VInt 1]
       ∧ is_value_of v "array" (VKernel ZIPWITH "add" lifted)
       ∧ kernel ZIPWITH "add" [demo_a_plus_b; VInt 1] demo_state
         = (Ok v, allocated s1 v)).
Proof.
  split.
  - apply (proj1 binop_kernel_unify_before_lifting
             "+" demo_t (VInt 7) "scalar" demo_state).
    + reflexivity.
    + exact registered_scalar.
  - apply (proj2 binop_kernel_unify_before_lifting
             ZIPWITH "add" [demo_a_plus_b; VInt 1] demo_a_plus_b (VInt 1)
             "array" demo_state).
    + reflexivity.
    + reflexivity.
    + reflexivity.
    + exact registered_array.
Defined.

(** C3 as stated fails in both directions.  On two plain numbers [binop]
    raises [AttributeError] where the specification's wording yields a Value;
    on a Value first operand [kernel] yields a Value of the wrapper's category
    where the specification's wording, which asks the bare [Kernel] node for
    its category, raises. *)
Lemma binop_kernel_unify_after_lifting_counterexample :
  binop "+" (VInt 2) (VInt 3) empty_state = (Raise AttributeError, empty_state)
  ∧ result_category (binop_spec "+" (VInt 2) (VInt 3) empty_state)
    = Ok "scalar"
  ∧ result_category (kernel ZIPWITH "add" [demo_a_plus_b; demo_a] demo_state)
    = Ok "array"
  ∧ kernel_spec ZIPWITH "add" [demo_a_plus_b; demo_a] demo_state
    = (Raise AttributeError, demo_state).
Proof.
  split; [reflexivity|]. split; [|split]; vm_compute; reflexivity.
Qed.

(** ** Evaluation *)

Section EvaluatorProperties.

Variable entropy : nat → nat.
Variables eval_numpy eval_blir eval_numexpr : value → Result value.

Local Abbreviation Node_eval' :=
  (Node_eval entropy eval_numpy eval_blir eval_numexpr).
Local Abbreviation eval' :=
  (eval entropy eval_numpy eval_blir eval_numexpr).


(** [Node.eval] on a registered name: a single call into [compile]. *)
Lemma Node_eval_registered depth v c expr name s :
  is_value_of v c expr → name ∈ backend_names →
  let after fname :=
    MkState (heap s) (draws s) (calls s ++ [(fname, expr)]) in
  Node_eval' (S depth) v (VStr name) s
  = (if String.eqb name "numpy" then (eval_numpy expr, after "eval_numpy")
     else if String.eqb name "blir" then (eval_blir expr, after "eval_blir")
     else (eval_numexpr expr, after "eval_numexpr")).
Proof.
  intros Hv Hname.
  destruct (is_value_isinstance v c expr Hv) as (_ & _ & Hast).
  cbn [Node_eval]. rewrite Hast.
  rewrite (bind_ok (liftR (Ok expr)) _ s expr s eq_refl).
  unfold backend_names in Hname.
  rewrite !elem_of_cons in Hname.
  destruct Hname as [->|[->|[->|Hnil]]]; [done|done|done|].
  by apply elem_of_nil in Hnil.
Qed.

(** A call of [eval] on a Value reaches [Node.eval]. *)
Lemma call_eval_Value v c graph node_eval :
  is_value_of v c graph →
  (∀ s, call_eval node_eval v [] [] s = node_eval v VNone s)
  ∧ (∀ b s, call_eval node_eval v [b] [] s = node_eval v b s)
  ∧ (∀ b s, call_eval node_eval v [] [("backend", b)] s = node_eval v b s).
Proof.
  intros (id & p & Hp & ->). unfold call_eval.
  rewrite (proxy_ok_no_eval _ _ _ Hp), (proxy_ok_base _ _ _ Hp). done.
Qed.



(** C7 (as amended).  Evaluating a Terminal returns the Terminal node
    itself, not the object stored in its [src] attribute.  The call
    resolves to [Terminal.eval]; it takes no draw from [oracle], calls no
    backend and constructs nothing: the state is unchanged. *)
Theorem eval_Terminal_returns_node
    (depth : nat) (t : value) (c : string) (src : value) (s : State) :
  is_terminal_of t c src →
  eval' depth t [] [] s = (Ok t, s).
Proof.
  intros (id & p & Hp & ->). unfold eval, call_eval.
  by rewrite (proxy_ok_no_eval _ _ _ Hp), (proxy_ok_base _ _ _ Hp).
Qed.

(** C10.  A Terminal's [eval] takes no argument besides the Terminal:
    passing a backend, by keyword or by position, raises [TypeError]
    whatever the backend is and leaves the state unchanged, whereas the
    same call on a Value is accepted and runs [Node.eval] with that
    backend. *)
Theorem eval_Terminal_rejects_backend
    (depth : nat) (t : value) (c : string) (src : value) (backend : value)
    (s : State) :
  is_terminal_of t c src →
  eval' depth t [] [("backend", backend)] s = (Raise TypeError, s)
  ∧ eval' depth t [backend] [] s = (Raise TypeError, s)
  ∧ (∀ (v : value) (c' : string) (graph : value),
       is_value_of v c' graph →
       eval' depth v [] [("backend", backend)] s
       = Node_eval' depth v backend s).
Proof.
  intros (id & p & Hp & ->). split; [|split].
  - unfold eval, call_eval.
    by rewrite (proxy_ok_no_eval _ _ _ Hp), (proxy_ok_base _ _ _ Hp).
  - unfold eval, call_eval.
    by rewrite (proxy_ok_no_eval _ _ _ Hp), (proxy_ok_base _ _ _ Hp).
  - intros v c' graph Hv. unfold eval.
    apply (call_eval_Value v c' graph _ Hv).
Qed.

End EvaluatorProperties.

Lemma demo_a_plus_b_is_value :
  is_value_of demo_a_plus_b "array" (VKernel ZIPWITH "add" [demo_a; demo_b]).
Proof.
  exists 2%nat, (proxy_of ClsValue "array").
  split; [vm_compute; reflexivity | reflexivity].
Defined.

Lemma demo_t_is_terminal : is_terminal_of demo_t "scalar" (VInt 2).
Proof.
  exists 0%nat, (proxy_of ClsTerminal "scalar").
  split; [vm_compute; reflexivity | reflexivity].
Defined.



Lemma eval_Terminal_returns_node_witness :
  eval constant_entropy echo_backend echo_backend echo_backend 1000
       demo_t [] [] (MkState [demo_t] 0 [])
  = (Ok demo_t, MkState [demo_t] 0 []).
Proof.
  apply (eval_Terminal_returns_node
           constant_entropy echo_backend echo_backend echo_backend
           1000 demo_t "scalar" (VInt 2) (MkState [demo_t] 0 [])).
  exact demo_t_is_terminal.
Defined.

(** C7 as stated fails: the Terminal made from the number 2 evaluates to the
    Terminal, which is not the number 2 it wraps. *)
Lemma eval_Terminal_source_counterexample :
  let r := eval constant_entropy echo_backend echo_backend echo_backend 1000
             demo_t [] [] (MkState [demo_t] 0 []) in
  getattr_src demo_t = Ok (VInt 2)
  ∧ fst r = Ok demo_t
  ∧ fst r ≠ Ok (VInt 2).
Proof.
  split; [vm_compute; reflexivity|].
  split; [vm_compute; reflexivity|].
  vm_compute. discriminate.
Qed.

Lemma eval_Terminal_rejects_backend_witness :
  let s := MkState [demo_t] 0 [] in
  eval constant_entropy echo_backend echo_backend echo_backend 1000
       demo_t [] [("backend", VStr "numpy")] s = (Raise TypeError, s)
  ∧ eval constant_entropy echo_backend echo_backend echo_backend 1000
         demo_t [VStr "numpy"] [] s = (Raise TypeError, s)
  ∧ (∀ (v : value) (c' : string) (graph : value),
       is_value_of v c' graph →
       eval constant_entropy echo_backend echo_backend echo_backend 1000
            v [] [("backend", VStr "numpy")] s
       = Node_eval constant_entropy echo_backend echo_backend echo_backend
                   1000 v (VStr "numpy") s).
Proof.
  apply (eval_Terminal_rejects_backend
           constant_entropy echo_backend echo_backend echo_backend
           1000 demo_t "scalar" (VInt 2) (VStr "numpy")
           (MkState [demo_t] 0 [])).
  exact demo_t_is_terminal.
Defined.

(** ** The default parallel map *)

Module PmapProperties.
Section PmapProperties.

Variable Func : Type.
Variable map : Func.

Lemma reachable_singleton dm :
  Pmap.reachable Func map dm → ∃ f, dm = [f].
Proof.
  induction 1 as [|func dm _ [f ->]].
  - by exists map.
  - by exists func.
Qed.

Lemma get_many_singleton n f :
  Pmap.get_many Func n [f] = (replicate n (Ok f), [f]).
Proof.
  induction n as [|n IH]; [done|].
  cbn [Pmap.get_many]. unfold Pmap.get_default_pmap. cbn.
  by rewrite IH.
Qed.

(** C9.  As the module is loaded, [get_default_pmap] returns the built-in
    [map].  Whatever calls of [set_default_pmap] came before, a call
    [set_default_pmap(func)] succeeds, and any number of calls of
    [get_default_pmap] after it each return exactly [func] and leave the
    stored list as it is. *)
Theorem pmap_set_get_round_trip :
  Pmap.get_default_pmap Func (Pmap.default_map Func map)
  = (Ok map, Pmap.default_map Func map)
  ∧ (∀ (func : Func) (dm : list Func) (n : nat),
       Pmap.reachable Func map dm →
       ∃ dm', Pmap.set_default_pmap Func func dm = (Ok (), dm')
              ∧ Pmap.get_default_pmap Func dm' = (Ok func, dm')
              ∧ Pmap.get_many Func n dm' = (replicate n (Ok func), dm')).
Proof.
  split; [reflexivity|].
  intros func dm n Hdm.
  destruct (reachable_singleton dm Hdm) as [f ->].
  exists [func]. split; [reflexivity|]. split; [reflexivity|].
  apply get_many_singleton.
Qed.

End PmapProperties.

Lemma pmap_set_get_round_trip_witness :
  ∃ dm', Pmap.set_default_pmap string "pmap" (Pmap.default_map string "map")
         = (Ok (), dm')
         ∧ Pmap.get_default_pmap string dm' = (Ok "pmap", dm')
         ∧ Pmap.get_many string 3 dm' = (replicate 3 (Ok "pmap"), dm').
Proof.
  apply (proj2 (pmap_set_get_round_trip string "map")
           "pmap" (Pmap.default_map string "map") 3%nat).
  constructor.
Defined.

End PmapProperties.

(** * Further properties *)

(** ** The synthesised classes *)

Lemma proxy_ns_lookup cls c p :
  _proxy cls c = Ok p →
  ∃ ms d, module !! c = Some ms ∧ docs !! c = Some d ∧ base p = cls
    ∧ ∀ name, ns p !! name
              = if decide (name = "__doc__") then Some (AStr d)
                else if decide (name = "ty") then Some (AStr c)
                else AMethod <$> ms !! name.
Proof.
  unfold _proxy. intros H.
  destruct (module !! c) as [ms|]; [|discriminate].
  destruct (docs !! c) as [d|]; [|discriminate].
  inversion H; subst; clear H. exists ms, d.
  split; [done|]. split; [done|]. split; [done|].
  intros name. cbn.
  destruct (decide (name = "__doc__")) as [->|Hd].
  { apply lookup_insert_eq. }
  rewrite lookup_insert_ne by done.
  destruct (decide (name = "ty")) as [->|Ht].
  { apply lookup_insert_eq. }
  rewrite lookup_insert_ne by done.
  apply lookup_fmap.
Qed.

(** X1.  For a category that both dictionaries have, [_proxy] succeeds for
    [Value] and for [Terminal] alike and passes one and the same dictionary
    to [type] for both classes: [__doc__] is the category's entry of [docs],
    [ty] is the category, and every other name, [__module__] set aside
    because [type] binds it in the class on its own, is bound exactly when
    [module] binds it for the category, to that lambda. *)
Theorem proxy_namespace (c : string) (ms : gmap string Method) (d : string) :
  module !! c = Some ms →
  docs !! c = Some d →
  ∃ nsp,
    _proxy ClsValue c = Ok (MkProxy ClsValue nsp)
    ∧ _proxy ClsTerminal c = Ok (MkProxy ClsTerminal nsp)
    ∧ nsp !! "__doc__" = Some (AStr d)
    ∧ nsp !! "ty" = Some (AStr c)
    ∧ ∀ name, name ≠ "__doc__" → name ≠ "ty" → name ≠ "__module__" →
              nsp !! name = AMethod <$> ms !! name.
Proof.
  intros Hm Hd.
  exists (<["__doc__" := AStr d]> (<["ty" := AStr c]> (AMethod <$> ms))).
  split; [unfold _proxy; by rewrite Hm, Hd|].
  split; [unfold _proxy; by rewrite Hm, Hd|].
  split; [apply lookup_insert_eq|].
  split; [rewrite lookup_insert_ne by done; apply lookup_insert_eq|].
  intros name H1 H2 _.
  rewrite lookup_insert_ne by done. rewrite lookup_insert_ne by done.
  apply lookup_fmap.
Qed.

Lemma proxy_namespace_witness :
  ∃ nsp,
    _proxy ClsValue "scalar" = Ok (MkProxy ClsValue nsp)
    ∧ _proxy ClsTerminal "scalar" = Ok (MkProxy ClsTerminal nsp)
    ∧ nsp !! "__doc__" = Some (AStr "A scalar value")
    ∧ nsp !! "ty" = Some (AStr "scalar")
    ∧ ∀ name, name ≠ "__doc__" → name ≠ "ty" → name ≠ "__module__" →
              nsp !! name
              = AMethod <$> (<["__add__" := scalar_add]>
                             (<["__mul__" := scalar_mul]>
                              (∅ : gmap string Method))) !! name.
Proof.
  apply (proxy_namespace "scalar").
  - vm_compute. reflexivity.
  - vm_compute. reflexivity.
Defined.

Lemma node_of_array_ns x :
  is_node_of x "array" →
  ∃ id p payload, x = VInst id p "array" payload
    ∧ ns p !! "__add__" = Some (AMethod array_add)
    ∧ ns p !! "__radd__" = Some (AMethod array_radd)
    ∧ ns p !! "dot" = Some (AMethod array_dot)
    ∧ ns p !! "__mul__" = None.
Proof.
  intros (id & cls & p & payload & Hp & ->).
  exists id, p, payload. split; [done|].
  destruct (proxy_ns_lookup _ _ _ Hp) as (ms & d & Hm & _ & _ & Hns).
  rewrite module_array in Hm. inversion Hm; subst ms; clear Hm.
  rewrite !Hns.
  split_and!; repeat (case_decide; [discriminate|]).
  - by rewrite lookup_insert_eq.
  - rewrite lookup_insert_ne by done. by rewrite lookup_insert_eq.
  - do 2 (rewrite lookup_insert_ne by done). by rewrite lookup_insert_eq.
  - by do 3 (rewrite lookup_insert_ne by done).
Qed.

Lemma node_of_scalar_ns x :
  is_node_of x "scalar" →
  ∃ id p payload, x = VInst id p "scalar" payload
    ∧ ns p !! "__add__" = Some (AMethod scalar_add)
    ∧ ns p !! "__mul__" = Some (AMethod scalar_mul)
    ∧ ns p !! "__radd__" = None
    ∧ ns p !! "dot" = None.
Proof.
  intros (id & cls & p & payload & Hp & ->).
  exists id, p, payload. split; [done|].
  destruct (proxy_ns_lookup _ _ _ Hp) as (ms & d & Hm & _ & _ & Hns).
  rewrite module_scalar in Hm. inversion Hm; subst ms; clear Hm.
  rewrite !Hns.
  split_and!; repeat (case_decide; [discriminate|]).
  - by rewrite lookup_insert_eq.
  - rewrite lookup_insert_ne by done. by rewrite lookup_insert_eq.
  - by do 2 (rewrite lookup_insert_ne by done).
  - by do 2 (rewrite lookup_insert_ne by done).
Qed.

(** X2.  The operations a node offers depend on its category.  On a node of
    category "array", [__add__] and [__radd__] are [kernel] with ZIPWITH and
    'add' (the operands exchanged for [__radd__]) and [dot] is [kernel] with
    REDUCE and 'dot', while the class's namespace has no [__mul__].  On a
    node of category "scalar", [__add__] and [__mul__] are [binop] with '+'
    and '*', while the namespace has neither [__radd__] nor [dot]. *)
Theorem registered_operations_by_category (x other : value) :
  (is_node_of x "array" →
     call_registered x "__add__" [other] []
     = Some (kernel ZIPWITH "add" [x; other])
     ∧ call_registered x "__radd__" [other] []
       = Some (kernel ZIPWITH "add" [other; x])
     ∧ call_registered x "dot" [other] []
       = Some (kernel REDUCE "dot" [x; other])
     ∧ call_registered x "__mul__" [other] [] = None)
  ∧ (is_node_of x "scalar" →
     call_registered x "__add__" [other] [] = Some (binop "+" x other)
     ∧ call_registered x "__mul__" [other] [] = Some (binop "*" x other)
     ∧ call_registered x "__radd__" [other] [] = None
     ∧ call_registered x "dot" [other] [] = None).
Proof.
  split; intros Hx.
  - destruct (node_of_array_ns x Hx)
      as (id & p & payload & -> & H1 & H2 & H3 & H4).
    unfold call_registered. by rewrite H1, H2, H3, H4.
  - destruct (node_of_scalar_ns x Hx)
      as (id & p & payload & -> & H1 & H2 & H3 & H4).
    unfold call_registered. by rewrite H1, H2, H3, H4.
Qed.

Lemma demo_a_is_node : is_node_of demo_a "array".
Proof.
  exists 0%nat, ClsTerminal, (proxy_of ClsTerminal "array"),
    (VNdarray "int32" [3; 1; 4]%Z).
  split; [vm_compute; reflexivity | reflexivity].
Defined.

Lemma demo_t_is_node : is_node_of demo_t "scalar".
Proof.
  exists 0%nat, ClsTerminal, (proxy_of ClsTerminal "scalar"), (VInt 2).
  split; [vm_compute; reflexivity | reflexivity].
Defined.

Lemma registered_operations_by_category_witness :
  (call_registered demo_a "__add__" [demo_b] []
   = Some (kernel ZIPWITH "add" [demo_a; demo_b])
   ∧ call_registered demo_a "__radd__" [demo_b] []
     = Some (kernel ZIPWITH "add" [demo_b; demo_a])
   ∧ call_registered demo_a "dot" [demo_b] []
     = Some (kernel REDUCE "dot" [demo_a; demo_b])
   ∧ call_registered demo_a "__mul__" [demo_b] [] = None)
  ∧ (call_registered demo_t "__add__" [VInt 7] []
     = Some (binop "+" demo_t (VInt 7))
     ∧ call_registered demo_t "__mul__" [VInt 7] []
       = Some (binop "*" demo_t (VInt 7))
     ∧ call_registered demo_t "__radd__" [VInt 7] [] = None
     ∧ call_registered demo_t "dot" [VInt 7] [] = None).
Proof.
  split.
  - apply (proj1 (registered_operations_by_category demo_a demo_b)).
    exact demo_a_is_node.
  - apply (proj2 (registered_operations_by_category demo_t (VInt 7))).
    exact demo_t_is_node.
Defined.

(** ** Graph construction only constructs *)

Lemma extends_refl s : extends s s.
Proof. by split. Qed.

Lemma extends_trans s1 s2 s3 : extends s1 s2 → extends s2 s3 → extends s1 s3.
Proof.
  intros (Hh & Hd & Hc) (Hh' & Hd' & Hc'). split; [|split].
  - by etrans.
  - congruence.
  - congruence.
Qed.

Lemma extends_allocated s ins : extends s (allocated s ins).
Proof. split; [|done]. by apply prefix_app_r. Qed.

Lemma builds_ret {A} (a : A) : builds_only (ret a).
Proof. intros s. apply extends_refl. Qed.

Lemma builds_raise {A} e : builds_only (@raise A e).
Proof. intros s. apply extends_refl. Qed.

Lemma builds_liftR {A} (r : Result A) : builds_only (liftR r).
Proof. intros s. apply extends_refl. Qed.

Lemma builds_bind {A B} (m : M A) (k : A → M B) :
  builds_only m → (∀ a, builds_only (k a)) → builds_only (bind m k).
Proof.
  intros Hm Hk s. unfold bind. specialize (Hm s).
  destruct (m s) as [[a|e] s']; cbn in *; [|done].
  eapply extends_trans; [exact Hm|apply Hk].
Qed.

Lemma builds_new_instance p c payload : builds_only (new_instance p c payload).
Proof. intros s. apply extends_allocated. Qed.

Lemma builds_Terminal c src : builds_only (Terminal c src).
Proof.
  apply builds_bind; [apply builds_liftR|].
  intros p. apply builds_new_instance.
Qed.

Lemma builds_Value c graph : builds_only (Value c graph).
Proof.
  apply builds_bind; [apply builds_liftR|].
  intros p. apply builds_new_instance.
Qed.

Lemma builds_unit val : builds_only (unit val).
Proof.
  unfold unit.
  destruct (isinstance val ClsValue); [apply builds_liftR|].
  destruct (isinstance val ClsTerminal); [apply builds_ret|].
  destruct (is_number val); [apply builds_Terminal|].
  destruct (is_list_or_ndarray val); [apply builds_Terminal|].
  destruct (is_object val); [apply builds_Terminal|apply builds_raise].
Qed.

Lemma builds_mapM {A B} (f : A → M B) xs :
  (∀ x, builds_only (f x)) → builds_only (mapM f xs).
Proof.
  intros Hf. induction xs as [|x xs IH]; cbn; [apply builds_ret|].
  apply builds_bind; [apply Hf|]. intros y.
  apply builds_bind; [apply IH|]. intros ys. apply builds_ret.
Qed.

Lemma builds_getitem xs i : builds_only (getitem xs i).
Proof.
  unfold getitem. destruct (xs !! i); [apply builds_ret|apply builds_raise].
Qed.

Lemma builds_binop op a b : builds_only (binop op a b).
Proof.
  unfold binop.
  apply builds_bind; [apply builds_liftR|]. intros retty.
  apply builds_bind; [apply builds_unit|]. intros a'.
  apply builds_bind; [apply builds_unit|]. intros b'.
  apply builds_Value.
Qed.

Lemma builds_kernel kind name args : builds_only (kernel kind name args).
Proof.
  unfold kernel.
  apply builds_bind; [apply builds_mapM, builds_unit|]. intros operands.
  apply builds_bind; [apply builds_getitem|]. intros arg0.
  apply builds_bind; [apply builds_getitem|]. intros arg1.
  apply builds_bind; [apply builds_liftR|]. intros retty.
  apply builds_Value.
Qed.

(** X3.  Building a graph is lazy.  Whatever the operands and whether the
    call returns or raises, [unit], [binop], [kernel] and the five lambdas of
    [module] take no draw from the random generator and call no backend; the
    instances constructed before the call are all still there, in the same
    order, followed by those the call constructed. *)
Theorem graph_construction_is_lazy :
  (∀ val : value, builds_only (unit val))
  ∧ (∀ (op : string) (a b : value), builds_only (binop op a b))
  ∧ (∀ (kind : Z) (name : string) (args : list value),
       builds_only (kernel kind name args))
  ∧ (∀ (m : Method) (self other : value),
       builds_only (call_method m self other)).
Proof.
  split_and!.
  - apply builds_unit.
  - apply builds_binop.
  - apply builds_kernel.
  - intros [] self other; cbn;
      first [apply builds_kernel | apply builds_binop].
Qed.

(** ** What [unit] does to each operand *)

Lemma count_raw_cons a args :
  count_raw (a :: args)
  = ((if is_raw a then 1 else 0) + count_raw args)%nat.
Proof.
  unfold count_raw. rewrite filter_cons.
  destruct (is_raw a); case_decide; done.
Qed.

Lemma unit_effect a s :
  ∃ l s', unit a s = (Ok l, s') ∧ lift_of a l
    ∧ length (heap s') = (length (heap s) + if is_raw a then 1 else 0)%nat.
Proof.
  unfold lift_of, is_raw.
  destruct (isinstance a ClsValue) eqn:Hv.
  { destruct (unit_Value_instance a s Hv) as (g & Hg & Hu).
    exists g, s. cbn. split; [done|]. split; [done|]. lia. }
  destruct (isinstance a ClsTerminal) eqn:Ht.
  { exists a, s. rewrite (unit_Terminal_instance a s Ht). cbn.
    split; [done|]. split; [done|]. lia. }
  rewrite (unit_raw a s Hv Ht). cbn.
  assert (registered (if is_number a then "scalar" else "array")) as Hreg.
  { destruct (is_number a); [apply registered_scalar|apply registered_array]. }
  destruct (Terminal_registered _ a s Hreg) as (t & Ht' & Heq).
  exists t, (allocated s t). split; [done|]. split; [done|].
  cbn. rewrite length_app. cbn. lia.
Qed.

Lemma mapM_unit_effect args s :
  ∃ lifted s', mapM unit args s = (Ok lifted, s')
    ∧ Forall2 lift_of args lifted
    ∧ length (heap s') = (length (heap s) + count_raw args)%nat.
Proof.
  revert s. induction args as [|a args IH]; intros s.
  - exists [], s. split; [done|]. split; [constructor|].
    unfold count_raw. cbn. lia.
  - destruct (unit_effect a s) as (l & s1 & Hl & Hrel & Hlen).
    destruct (IH s1) as (ls & s2 & Hls & Hrels & Hlens).
    exists (l :: ls), s2. split; [|split].
    + cbn. rewrite (bind_ok _ _ _ _ _ Hl), (bind_ok _ _ _ _ _ Hls). done.
    + by constructor.
    + rewrite count_raw_cons. lia.
Qed.

(** X4.  [map(unit, args)], the first step of [kernel], never raises and
    returns one node per argument, in the order of the arguments: for a Value
    the graph it holds, for a Terminal the Terminal itself, and for any other
    host value a Terminal wrapping it, of category "scalar" for a number and
    "array" otherwise.  It constructs exactly one instance per argument of
    the last sort. *)
Theorem lifting_operands (args : list value) (s : State) :
  ∃ lifted s',
    mapM unit args s = (Ok lifted, s')
    ∧ Forall2 lift_of args lifted
    ∧ length (heap s') = (length (heap s) + count_raw args)%nat
    ∧ extends s s'.
Proof.
  destruct (mapM_unit_effect args s) as (lifted & s' & Hm & Hrel & Hlen).
  exists lifted, s'. split_and!; try done.
  pose proof (builds_mapM unit args builds_unit s) as Hext.
  by rewrite Hm in Hext.
Qed.

(** ** Results of [binop] and [kernel] *)

Lemma has_ty_not_raw a c : getattr_ty a = Ok c → is_raw a = false.
Proof.
  destruct a as [| | | | | | | | | | | |id [[|] nsp] ty payload];
    try discriminate; done.
Qed.

Lemma no_ty_is_raw a : getattr_ty a = Raise AttributeError → is_raw a = true.
Proof.
  destruct a as [| | | | | | | | | | | |id [[|] nsp] ty payload];
    try discriminate; done.
Qed.

Lemma binop_ok op a b c s :
  getattr_ty a = Ok c → registered c →
  ∃ la lb s2 p,
    unit a s = (Ok la, s) ∧ unit b s = (Ok lb, s2)
    ∧ lift_of a la ∧ lift_of b lb
    ∧ length (heap s2) = (length (heap s) + if is_raw b then 1 else 0)%nat
    ∧ _proxy ClsValue c = Ok p
    ∧ binop op a b s
      = (Ok (VInst (length (heap s2)) p c (VOp op la lb)),
         allocated s2 (VInst (length (heap s2)) p c (VOp op la lb))).
Proof.
  intros Ha Hc.
  assert (∃ la, unit a s = (Ok la, s) ∧ lift_of a la) as (la & Hla & Hrela).
  { unfold lift_of.
    destruct a as [| | | | | | | | | | | |id [[|] nsp] ty payload];
      try discriminate.
    - by exists payload.
    - by eexists. }
  destruct (unit_effect b s) as (lb & s2 & Hlb & Hrelb & Hlen).
  destruct (proxy_registered ClsValue c Hc) as [nsp Hp].
  exists la, lb, s2, (MkProxy ClsValue nsp). split_and!; try done.
  unfold binop, unify. rewrite Ha.
  rewrite (bind_ok (liftR (Ok c)) _ s c s eq_refl).
  rewrite (bind_ok _ _ _ _ _ Hla), (bind_ok _ _ _ _ _ Hlb).
  unfold Value, bind, liftR. by rewrite Hp.
Qed.

Lemma kernel_ok kind name args a0 a1 c s :
  args !! 0%nat = Some a0 → args !! 1%nat = Some a1 →
  getattr_ty a0 = Ok c → registered c →
  ∃ lifted s1 p,
    mapM unit args s = (Ok lifted, s1)
    ∧ Forall2 lift_of args lifted
    ∧ length (heap s1) = (length (heap s) + count_raw args)%nat
    ∧ _proxy ClsValue c = Ok p
    ∧ kernel kind name args s
      = (Ok (VInst (length (heap s1)) p c (VKernel kind name lifted)),
         allocated s1 (VInst (length (heap s1)) p c
                             (VKernel kind name lifted))).
Proof.
  intros H0 H1 Ha Hc.
  destruct (mapM_unit_effect args s) as (lifted & s1 & Hmap & Hrel & Hlen).
  destruct (proxy_registered ClsValue c Hc) as [nsp Hp].
  exists lifted, s1, (MkProxy ClsValue nsp). split_and!; try done.
  unfold kernel. rewrite (bind_ok _ _ _ _ _ Hmap).
  unfold getitem. rewrite H0, H1.
  rewrite (bind_ok (ret a0) _ s1 a0 s1 eq_refl).
  rewrite (bind_ok (ret a1) _ s1 a1 s1 eq_refl).
  unfold unify. rewrite Ha.
  rewrite (bind_ok (liftR (Ok c)) _ s1 c s1 eq_refl).
  unfold Value, bind, liftR. by rewrite Hp.
Qed.

Lemma lift_of_graph_ok a l :
  lift_of a l → operand_ok a = true → graph_ok l = true.
Proof.
  unfold lift_of. intros Hl Ha.
  destruct (isinstance a ClsValue) eqn:Hv.
  { destruct a as [| | | | | | | | | | | |id [[|] nsp] ty payload];
      try discriminate.
    cbn in Hl, Ha. by inversion Hl; subst. }
  destruct (isinstance a ClsTerminal) eqn:Ht.
  { subst l.
    destruct a as [| | | | | | | | | | | |id [[|] nsp] ty payload];
      try discriminate. done. }
  destruct Hl as (id & p & Hp & ->).
  apply proxy_ok_base in Hp. destruct p as [bp nsp]. cbn in Hp. by subst bp.
Qed.

Lemma Forall2_lift_of_graph_ok args lifted :
  Forall2 lift_of args lifted → forallb operand_ok args = true →
  forallb graph_ok lifted = true.
Proof.
  induction 1 as [|a l args lifted Hl _ IH]; [done|].
  cbn. rewrite !andb_true_iff. intros [Ha Hargs].
  split; [by eapply lift_of_graph_ok|by apply IH].
Qed.

(** X5.  The graphs handed to the backends are trees of [Op] and [Kernel]
    nodes over Terminal leaves.  When the first operand is a node of a
    registered category and no operand is a Value holding anything else than
    such a tree, [binop] and [kernel] return a Value that holds such a tree
    again: Value wrappers are replaced by their graphs and raw host values
    by Terminals, so neither occurs inside a graph. *)
Theorem built_graphs_are_trees :
  (∀ (op : string) (a b : value) (c : string) (s : State),
     getattr_ty a = Ok c → registered c →
     operand_ok a = true → operand_ok b = true →
     ∃ v g s', binop op a b s = (Ok v, s')
               ∧ is_value_of v c g ∧ graph_ok g = true
               ∧ operand_ok v = true)
  ∧ (∀ (kind : Z) (name : string) (args : list value) (a0 a1 : value)
       (c : string) (s : State),
     args !! 0%nat = Some a0 → args !! 1%nat = Some a1 →
     getattr_ty a0 = Ok c → registered c →
     forallb operand_ok args = true →
     ∃ v g s', kernel kind name args s = (Ok v, s')
               ∧ is_value_of v c g ∧ graph_ok g = true
               ∧ operand_ok v = true).
Proof.
  split.
  - intros op a b c s Ha Hc Hoa Hob.
    destruct (binop_ok op a b c s Ha Hc)
      as (la & lb & s2 & p & _ & _ & Hra & Hrb & _ & Hp & Hbin).
    assert (graph_ok (VOp op la lb) = true) as Hg.
    { cbn. rewrite (lift_of_graph_ok a la Hra Hoa).
      by rewrite (lift_of_graph_ok b lb Hrb Hob). }
    eexists _, (VOp op la lb), _. split; [exact Hbin|].
    split; [by eexists _, p|]. split; [done|].
    pose proof (proxy_ok_base _ _ _ Hp) as Hb.
    destruct p as [bp nsp]. cbn in Hb. by subst bp.
  - intros kind name args a0 a1 c s H0 H1 Ha Hc Hargs.
    destruct (kernel_ok kind name args a0 a1 c s H0 H1 Ha Hc)
      as (lifted & s1 & p & _ & Hrel & _ & Hp & Hker).
    assert (graph_ok (VKernel kind name lifted) = true) as Hg.
    { cbn. by eapply Forall2_lift_of_graph_ok. }
    eexists _, (VKernel kind name lifted), _. split; [exact Hker|].
    split; [by eexists _, p|]. split; [done|].
    pose proof (proxy_ok_base _ _ _ Hp) as Hb.
    destruct p as [bp nsp]. cbn in Hb. by subst bp.
Qed.

Lemma built_graphs_are_trees_witness :
  (∃ v g s', binop "+" demo_a_plus_b (VInt 1) demo_state = (Ok v, s')
             ∧ is_value_of v "array" g ∧ graph_ok g = true
             ∧ operand_ok v = true)
  ∧ (∃ v g s', kernel REDUCE "dot" [demo_a; demo_a_plus_b] demo_state
               = (Ok v, s')
               ∧ is_value_of v "array" g ∧ graph_ok g = true
               ∧ operand_ok v = true).
Proof.
  split.
  - apply (proj1 built_graphs_are_trees
             "+" demo_a_plus_b (VInt 1) "array" demo_state).
    + reflexivity.
    + exact registered_array.
    + vm_compute. reflexivity.
    + reflexivity.
  - apply (proj2 built_graphs_are_trees
             REDUCE "dot" [demo_a; demo_a_plus_b] demo_a demo_a_plus_b
             "array" demo_state).
    + reflexivity.
    + reflexivity.
    + reflexivity.
    + exact registered_array.
    + vm_compute. reflexivity.
Defined.

(** X6.  A first operand without a category, such as a plain number, makes
    both builders raise [AttributeError], at different moments.  [binop]
    asks for the category first and raises with the state untouched.
    [kernel] lifts every operand first, so it raises after constructing a
    Terminal for each raw operand, the first one included; this is the path
    [__radd__] of category "array" takes whenever its other operand is a raw
    value. *)
Theorem first_operand_without_category :
  (∀ (op : string) (a b : value) (s : State),
     getattr_ty a = Raise AttributeError →
     binop op a b s = (Raise AttributeError, s))
  ∧ (∀ (kind : Z) (name : string) (args : list value) (a0 a1 : value)
       (s : State),
     args !! 0%nat = Some a0 → args !! 1%nat = Some a1 →
     getattr_ty a0 = Raise AttributeError →
     ∃ s', kernel kind name args s = (Raise AttributeError, s')
           ∧ length (heap s') = (length (heap s) + count_raw args)%nat
           ∧ (0 < count_raw args)%nat)
  ∧ (∀ (self other : value) (s : State),
     getattr_ty other = Raise AttributeError →
     ∃ s', call_method array_radd self other s = (Raise AttributeError, s')
           ∧ (length (heap s) < length (heap s'))%nat).
Proof.
  assert (∀ kind name args a0 a1 s,
            args !! 0%nat = Some a0 → args !! 1%nat = Some a1 →
            getattr_ty a0 = Raise AttributeError →
            ∃ s', kernel kind name args s = (Raise AttributeError, s')
                  ∧ length (heap s') = (length (heap s) + count_raw args)%nat
                  ∧ (0 < count_raw args)%nat) as Hkernel.
  { intros kind name args a0 a1 s H0 H1 Ha.
    destruct (mapM_unit_effect args s) as (lifted & s1 & Hmap & _ & Hlen).
    exists s1. split; [|split; [done|]].
    - unfold kernel. rewrite (bind_ok _ _ _ _ _ Hmap).
      unfold getitem. rewrite H0, H1.
      rewrite (bind_ok (ret a0) _ s1 a0 s1 eq_refl).
      rewrite (bind_ok (ret a1) _ s1 a1 s1 eq_refl).
      unfold unify. rewrite Ha. reflexivity.
    - destruct args as [|x args]; [discriminate|].
      cbn in H0. inversion H0; subst x.
      rewrite count_raw_cons, (no_ty_is_raw a0 Ha). lia. }
  split; [|split].
  - intros op a b s Ha. unfold binop, unify. by rewrite Ha.
  - exact Hkernel.
  - intros self other s Ha.
    destruct (Hkernel ZIPWITH "add" [other; self] other self s
                eq_refl eq_refl Ha) as (s' & Hk & Hlen & Hpos).
    exists s'. split; [exact Hk|lia].
Qed.

Lemma first_operand_without_category_witness :
  binop "+" (VInt 2) demo_t demo_state = (Raise AttributeError, demo_state)
  ∧ (∃ s', kernel ZIPWITH "add" [VInt 1; demo_a] demo_state
           = (Raise AttributeError, s')
           ∧ length (heap s')
             = (length (heap demo_state) + count_raw [VInt 1; demo_a])%nat
           ∧ (0 < count_raw [VInt 1; demo_a])%nat)
  ∧ (∃ s', call_method array_radd demo_a (VInt 1) demo_state
           = (Raise AttributeError, s')
           ∧ (length (heap demo_state) < length (heap s'))%nat).
Proof.
  split; [|split].
  - apply (proj1 first_operand_without_category). reflexivity.
  - apply (proj1 (proj2 first_operand_without_category)
             ZIPWITH "add" [VInt 1; demo_a] (VInt 1) demo_a demo_state);
      reflexivity.
  - apply (proj2 (proj2 first_operand_without_category)). reflexivity.
Defined.

(** ** Chained operations *)

Lemma foldM_category (f : value → value → M value) (c : string) :
  (∀ a b s, getattr_ty a = Ok c →
     ∃ v s', f a b s = (Ok v, s') ∧ getattr_ty v = Ok c
       ∧ length (heap s')
         = (length (heap s) + 1 + if is_raw b then 1 else 0)%nat) →
  ∀ bs a s, getattr_ty a = Ok c →
    ∃ v s', foldM f a bs s = (Ok v, s') ∧ getattr_ty v = Ok c
      ∧ length (heap s')
        = (length (heap s) + length bs + count_raw bs)%nat.
Proof.
  intros Hf bs. induction bs as [|b bs IH]; intros a s Ha.
  - exists a, s. split; [done|]. split; [done|].
    unfold count_raw. cbn. lia.
  - destruct (Hf a b s Ha) as (v & s1 & Hv & Hty & Hlen).
    destruct (IH v s1 Hty) as (v' & s2 & Hv' & Hty' & Hlen').
    exists v', s2. split; [|split; [done|]].
    + cbn. by rewrite (bind_ok _ _ _ _ _ Hv).
    + rewrite count_raw_cons. cbn. lia.
Qed.

(** X7.  In a chain [a op b1 op ... op bn], built from the left as Python
    evaluates it, every intermediate result and the final one have the
    category of the leftmost operand [a], whatever the other operands are;
    the chain never raises, and it constructs one Value per operation and one
    Terminal per raw operand.  This holds for chains of [binop] and for
    chains of two-operand [kernel] calls. *)
Theorem chain_keeps_leftmost_category
    (a : value) (c : string) (bs : list value) (s : State) :
  getattr_ty a = Ok c →
  registered c →
  (∀ op : string,
     ∃ v s', foldM (binop op) a bs s = (Ok v, s')
             ∧ getattr_ty v = Ok c
             ∧ length (heap s')
               = (length (heap s) + length bs + count_raw bs)%nat)
  ∧ (∀ (kind : Z) (name : string),
     ∃ v s', foldM (λ x y, kernel kind name [x; y]) a bs s = (Ok v, s')
             ∧ getattr_ty v = Ok c
             ∧ length (heap s')
               = (length (heap s) + length bs + count_raw bs)%nat).
Proof.
  intros Ha Hc. split.
  - intros op. apply (foldM_category (binop op) c); [|done].
    intros x y s0 Hx.
    destruct (binop_ok op x y c s0 Hx Hc)
      as (la & lb & s2 & p & _ & _ & _ & _ & Hlen & _ & Hbin).
    eexists _, _. split; [exact Hbin|]. split; [done|].
    cbn. rewrite length_app. cbn. lia.
  - intros kind name.
    apply (foldM_category (λ x y, kernel kind name [x; y]) c); [|done].
    intros x y s0 Hx.
    destruct (kernel_ok kind name [x; y] x y c s0 eq_refl eq_refl Hx Hc)
      as (lifted & s1 & p & _ & _ & Hlen & _ & Hker).
    eexists _, _. split; [exact Hker|]. split; [done|].
    cbn. rewrite length_app. cbn.
    rewrite !count_raw_cons, (has_ty_not_raw x c Hx) in Hlen.
    unfold count_raw in Hlen. cbn in Hlen. lia.
Qed.

Lemma chain_keeps_leftmost_category_witness :
  (∀ op : string,
     ∃ v s', foldM (binop op) demo_t [VInt 7; demo_a; VFloat 0] demo_state
             = (Ok v, s')
             ∧ getattr_ty v = Ok "scalar"
             ∧ length (heap s')
               = (length (heap demo_state)
                  + length [VInt 7; demo_a; VFloat 0]
                  + count_raw [VInt 7; demo_a; VFloat 0])%nat)
  ∧ (∀ (kind : Z) (name : string),
     ∃ v s', foldM (λ x y, kernel kind name [x; y]) demo_t
                   [VInt 7; demo_a; VFloat 0] demo_state = (Ok v, s')
             ∧ getattr_ty v = Ok "scalar"
             ∧ length (heap s')
               = (length (heap demo_state)
                  + length [VInt 7; demo_a; VFloat 0]
                  + count_raw [VInt 7; demo_a; VFloat 0])%nat).
Proof.
  apply (chain_keeps_leftmost_category
           demo_t "scalar" [VInt 7; demo_a; VFloat 0] demo_state).
  - reflexivity.
  - exact registered_scalar.
Defined.

(** ** [Node.ast] *)

Lemma proxy_ok_no_ast cls c p : _proxy cls c = Ok p → ns p !! "ast" = None.
Proof.
  intros Hp.
  destruct (proxy_ns_lookup _ _ _ Hp) as (ms & d & Hm & _ & _ & Hns).
  rewrite Hns. repeat (case_decide; [discriminate|]).
  destruct (module_lookup c) as [Hn|[->| ->]].
  - congruence.
  - rewrite module_array in Hm. inversion Hm.
    by repeat (rewrite lookup_insert_ne by done).
  - rewrite module_scalar in Hm. inversion Hm.
    by repeat (rewrite lookup_insert_ne by done).
Qed.

(** X8.  [ast()] on a Value returns the graph the Value holds, which is
    exactly what [unit] returns for it, and changes nothing.  On a Terminal,
    which inherits [ast] from [Node] but has no [_ast] attribute, the same
    call raises [AttributeError]. *)
Theorem ast_of_value_and_terminal (s : State) :
  (∀ (v : value) (c : string) (graph : value),
     is_value_of v c graph →
     call_ast v [] [] s = (Ok graph, s)
     ∧ call_ast v [] [] s = unit v s)
  ∧ (∀ (t : value) (c : string) (src : value),
     is_terminal_of t c src →
     call_ast t [] [] s = (Raise AttributeError, s)).
Proof.
  split.
  - intros v c graph (id & p & Hp & ->).
    unfold call_ast. rewrite (proxy_ok_no_ast _ _ _ Hp).
    pose proof (proxy_ok_base _ _ _ Hp) as Hb.
    destruct p as [bp nsp]. cbn in Hb. subst bp. done.
  - intros t c src (id & p & Hp & ->).
    unfold call_ast. rewrite (proxy_ok_no_ast _ _ _ Hp).
    pose proof (proxy_ok_base _ _ _ Hp) as Hb.
    destruct p as [bp nsp]. cbn in Hb. subst bp. done.
Qed.

Lemma ast_of_value_and_terminal_witness :
  (call_ast demo_a_plus_b [] [] demo_state
   = (Ok (VKernel ZIPWITH "add" [demo_a; demo_b]), demo_state)
   ∧ call_ast demo_a_plus_b [] [] demo_state = unit demo_a_plus_b demo_state)
  ∧ call_ast demo_t [] [] demo_state = (Raise AttributeError, demo_state).
Proof.
  split.
  - apply (proj1 (ast_of_value_and_terminal demo_state)
             demo_a_plus_b "array").
    exact demo_a_plus_b_is_value.
  - apply (proj2 (ast_of_value_and_terminal demo_state)
             demo_t "scalar" (VInt 2)).
    exact demo_t_is_terminal.
Defined.

(** ** The oracle and the explicit backends *)

Section BackendProperties.

Variable entropy : nat → nat.
Variables eval_numpy eval_blir eval_numexpr : value → Result value.

Local Abbreviation eval'' :=
  (eval entropy eval_numpy eval_blir eval_numexpr).

(** X9.  [oracle] never looks at the graph it is given.  Whatever the
    generator yields, it returns one of 'numpy', 'blir', 'numexpr', the one
    at the position the draw selects, takes exactly one draw, constructs
    nothing and calls no backend. *)
Theorem oracle_returns_registered_name (expr : value) (s : State) :
  ∃ name,
    backend_names !! (entropy (draws s) `mod` 3)%nat = Some name
    ∧ name ∈ backend_names
    ∧ oracle entropy expr s
      = (Ok (VStr name), MkState (heap s) (S (draws s)) (calls s))
    ∧ ∀ expr' : value, oracle entropy expr' s = oracle entropy expr s.
Proof.
  pose proof (Nat.mod_upper_bound (entropy (draws s)) 3 ltac:(lia)) as Hlt.
  destruct (lookup_lt_is_Some_2 backend_names
              (entropy (draws s) `mod` 3)%nat Hlt) as [name Hname].
  exists name. split; [done|].
  split; [by eapply list_elem_of_lookup_2|].
  split; [|done].
  unfold oracle, random_choice, bind, backend_names in *. cbn [length].
  by rewrite Hname.
Qed.

(** X10.  With an explicit backend name out of the three, evaluating a
    Value calls the function of [compile] that goes with the name, once, on
    the graph the Value holds, and returns its result, raised exception
    included; no draw is taken and nothing is constructed.  The backend may
    be passed by position as well; any other keyword is a [TypeError]. *)
Theorem eval_explicit_backend
    (depth : nat) (v : value) (c : string) (expr : value) (s : State) :
  is_value_of v c expr →
  let after fname :=
    MkState (heap s) (draws s) (calls s ++ [(fname, expr)]) in
  eval'' (S depth) v [] [("backend", VStr "numpy")] s
  = (eval_numpy expr, after "eval_numpy")
  ∧ eval'' (S depth) v [] [("backend", VStr "blir")] s
    = (eval_blir expr, after "eval_blir")
  ∧ eval'' (S depth) v [] [("backend", VStr "numexpr")] s
    = (eval_numexpr expr, after "eval_numexpr")
  ∧ (∀ backend : value,
       eval'' (S depth) v [backend] [] s
       = eval'' (S depth) v [] [("backend", backend)] s)
  ∧ (∀ (k : string) (backend : value),
       k ≠ "backend" →
       eval'' (S depth) v [] [(k, backend)] s = (Raise TypeError, s)).
Proof.
  intros Hv after.
  destruct (call_eval_Value v c expr
              (Node_eval entropy eval_numpy eval_blir eval_numexpr (S depth))
              Hv) as (_ & Hpos & Hkw).
  unfold eval. rewrite !Hkw. split_and!.
  - rewrite (Node_eval_registered _ _ _ _ depth v c expr "numpy" s Hv);
      [done|set_solver].
  - rewrite (Node_eval_registered _ _ _ _ depth v c expr "blir" s Hv);
      [done|set_solver].
  - rewrite (Node_eval_registered _ _ _ _ depth v c expr "numexpr" s Hv);
      [done|set_solver].
  - intros backend. by rewrite Hpos, Hkw.
  - intros k backend Hk. destruct Hv as (id & p & Hp & ->).
    unfold call_eval.
    rewrite (proxy_ok_no_eval _ _ _ Hp), (proxy_ok_base _ _ _ Hp).
    apply String.eqb_neq in Hk. by rewrite Hk.
Qed.

(** X11.  Results are not cached.  Evaluating the same Value twice with the
    same backend name out of the three calls the backend function that goes
    with the name twice, each time on the graph the Value holds, whatever
    the first call returned or raised; the heap and the number of draws stay
    as they were. *)
Theorem eval_twice_calls_backend_twice
    (depth : nat) (v : value) (c : string) (expr : value) (name : string)
    (s : State) :
  is_value_of v c expr →
  name ∈ backend_names →
  let r1 := eval'' (S depth) v [VStr name] [] s in
  let r2 := eval'' (S depth) v [VStr name] [] (snd r1) in
  calls (snd r1) = (calls s ++ [(compile_name name, expr)])%list
  ∧ calls (snd r2)
    = (calls s
       ++ [(compile_name name, expr); (compile_name name, expr)])%list
  ∧ heap (snd r2) = heap s
  ∧ draws (snd r2) = draws s.
Proof.
  intros Hv Hname r1 r2.
  destruct (call_eval_Value v c expr
              (Node_eval entropy eval_numpy eval_blir eval_numexpr (S depth))
              Hv) as (_ & Hpos & _).
  unfold r2, r1, eval. rewrite !Hpos.
  rewrite (Node_eval_registered _ _ _ _ depth v c expr name s Hv Hname).
  unfold backend_names in Hname. rewrite !elem_of_cons in Hname.
  destruct Hname as [->|[->|[->|Hnil]]]; [| | |by apply elem_of_nil in Hnil];
    cbn [String.eqb Ascii.eqb Bool.eqb fst snd];
    (rewrite Node_eval_registered with (c := c) (expr := expr);
       [|done|set_solver]);
    cbn; by rewrite <- app_assoc.
Qed.

End BackendProperties.

Lemma eval_explicit_backend_witness :
  let expr := VKernel ZIPWITH "add" [demo_a; demo_b] in
  let after fname :=
    MkState (heap demo_state) (draws demo_state)
            (calls demo_state ++ [(fname, expr)]) in
  let run := eval constant_entropy echo_backend echo_backend echo_backend in
  run 1%nat demo_a_plus_b [] [("backend", VStr "numpy")] demo_state
  = (echo_backend expr, after "eval_numpy")
  ∧ run 1%nat demo_a_plus_b [] [("backend", VStr "blir")] demo_state
    = (echo_backend expr, after "eval_blir")
  ∧ run 1%nat demo_a_plus_b [] [("backend", VStr "numexpr")] demo_state
    = (echo_backend expr, after "eval_numexpr")
  ∧ (∀ backend : value,
       run 1%nat demo_a_plus_b [backend] [] demo_state
       = run 1%nat demo_a_plus_b [] [("backend", backend)] demo_state)
  ∧ (∀ (k : string) (backend : value),
       k ≠ "backend" →
       run 1%nat demo_a_plus_b [] [(k, backend)] demo_state
       = (Raise TypeError, demo_state)).
Proof.
  apply (eval_explicit_backend
           constant_entropy echo_backend echo_backend echo_backend
           0 demo_a_plus_b "array" (VKernel ZIPWITH "add" [demo_a; demo_b])
           demo_state).
  exact demo_a_plus_b_is_value.
Defined.

Lemma eval_twice_calls_backend_twice_witness :
  let expr := VKernel ZIPWITH "add" [demo_a; demo_b] in
  let run := eval constant_entropy echo_backend echo_backend echo_backend in
  let r1 := run 1%nat demo_a_plus_b [VStr "blir"] [] demo_state in
  let r2 := run 1%nat demo_a_plus_b [VStr "blir"] [] (snd r1) in
  calls (snd r1) = (calls demo_state ++ [(compile_name "blir", expr)])%list
  ∧ calls (snd r2)
    = (calls demo_state
       ++ [(compile_name "blir", expr); (compile_name "blir", expr)])%list
  ∧ heap (snd r2) = heap demo_state
  ∧ draws (snd r2) = draws demo_state.
Proof.
  apply (eval_twice_calls_backend_twice
           constant_entropy echo_backend echo_backend echo_backend
           0 demo_a_plus_b "array" (VKernel ZIPWITH "add" [demo_a; demo_b])
           "blir" demo_state).
  - exact demo_a_plus_b_is_value.
  - vm_compute. apply list_elem_of_further, list_elem_of_here.
Defined.

(** ** Sequences of replacements of the default map *)

Module PmapSequences.
Section PmapSequences.

Variable Func : Type.

(** X12.  [set_default_pmap] writes slot 0 of the stored list and nothing
    else.  After any sequence of calls on a non-empty list the slot holds
    the function of the last call (the original one if there was no call),
    [get_default_pmap] returns it, and the rest of the list is what it was.
    On an empty list every call raises [IndexError] and the list stays
    empty. *)
Theorem set_many_last_wins (fs : list Func) (x : Func) (rest : list Func) :
  set_many fs (x :: rest) = default x (last fs) :: rest
  ∧ Pmap.get_default_pmap Func (set_many fs (x :: rest))
    = (Ok (default x (last fs)), default x (last fs) :: rest)
  ∧ set_many fs [] = []
  ∧ (∀ f : Func, Pmap.set_default_pmap Func f [] = (Raise IndexError, []))
  ∧ Pmap.get_default_pmap Func [] = (Raise IndexError, []).
Proof.
  assert (∀ y, set_many fs (y :: rest) = default y (last fs) :: rest) as Hset.
  { induction fs as [|f fs IH]; intros y; [done|].
    cbn [set_many]. cbn. rewrite IH.
    destruct fs as [|g fs]; [done|]. rewrite last_cons_cons.
    destruct (last (g :: fs)) as [z|] eqn:Hlast; [done|].
    by apply last_None in Hlast. }
  split_and!.
  - apply Hset.
  - by rewrite Hset.
  - clear Hset. induction fs as [|f fs IH]; [done|]. exact IH.
  - done.
  - done.
Qed.

End PmapSequences.
End PmapSequences.
